(** * CSVDataTable: a flat-file table over an in-memory list of rows

    Shallow embedding of [src/CSVDataTable.py] (class [CSVDataTable], which
    extends the abstract [BaseDataTable]) and of the parts of Python's [csv]
    and [os.path] modules that its methods call.

    Conventions of the embedding.
    - A Python [dict] is an insertion-ordered association list with unique
      keys ([Dict.wf]); [d[k] = v] keeps the position of an existing key and
      appends a new one, as CPython does.
    - A method that can raise returns a [result]; a method that mutates
      [self] or the file system returns the new state next to its result, and
      it does so on failure too: an exception rolls nothing back.
    - Scalar values are [None], [str] and [int]; on these Python's [==] is
      structural equality ([float] and [bool], which compare equal to some
      [int]s, are left out).
    - Logging calls are left out: they do not touch the rows or the files. *)

From Stdlib Require Import List String Ascii ZArith Bool Lia DecimalString.
From Stdlib Require Import Permutation.
Import ListNotations.
Open Scope string_scope.
Open Scope list_scope.

(** ** Python exceptions and results *)

(** Built-in exceptions the code can raise ([CsvError] is [csv.Error]), and
    exception classes referred to by name only ([UserDefined]): the source
    defines no exception class of its own and raises none. *)
Inductive exn : Type :=
| KeyError (key : string)
| IndexError
| ValueError
| FileNotFoundError
| PermissionError
| IsADirectoryError
| CsvError
| UserDefined (class_name : string).

Inductive result (A : Type) : Type :=
| Ok (a : A)
| Raise (e : exn).
Arguments Ok {A} a.
Arguments Raise {A} e.

Definition bind {A B} (c : result A) (k : A -> result B) : result B :=
  match c with
  | Ok a => k a
  | Raise e => Raise e
  end.

Notation "x <- c ;; k" := (bind c (fun x => k))
  (at level 61, c at next level, right associativity).

(** [for x in xs: acc = body(acc, x)], stopping at the first exception. *)
Fixpoint for_each {A S} (body : S -> A -> result S) (xs : list A) (acc : S)
  : result S :=
  match xs with
  | [] => Ok acc
  | x :: xs' => acc' <- body acc x ;; for_each body xs' acc'
  end.

(** Every element mapped through a function that can raise; the first
    exception ends the run. *)
Fixpoint map_result {A B} (f : A -> result B) (xs : list A)
  : result (list B) :=
  match xs with
  | [] => Ok []
  | x :: xs' => y <- f x ;; ys <- map_result f xs' ;; Ok (y :: ys)
  end.

(** ** Values *)

Inductive value : Type :=
| VNone
| VStr (s : string)
| VInt (n : Z).

(** Python's [==] on the scalar values. *)
Definition value_eqb (a b : value) : bool :=
  match a, b with
  | VNone, VNone => true
  | VStr s, VStr t => String.eqb s t
  | VInt n, VInt m => Z.eqb n m
  | _, _ => false
  end.

(** ** Dictionaries *)

Module Dict.
Section WithValues.
Context {V : Type}.

Definition t := list (string * V).

Definition keys (d : t) : list string := map fst d.

Definition items (d : t) : list (string * V) := d.

(** [d.get(k)], with [None] for the absent value. *)
Fixpoint get (k : string) (d : t) : option V :=
  match d with
  | [] => None
  | (k', v) :: d' => if String.eqb k k' then Some v else get k d'
  end.

(** [d.get(k, default)] *)
Definition get_default (k : string) (default : V) (d : t) : V :=
  match get k d with
  | Some v => v
  | None => default
  end.

(** [d[k]] *)
Definition getitem (k : string) (d : t) : result V :=
  match get k d with
  | Some v => Ok v
  | None => Raise (KeyError k)
  end.

(** [d[k] = v] *)
Fixpoint set (k : string) (v : V) (d : t) : t :=
  match d with
  | [] => [(k, v)]
  | (k', v') :: d' =>
      if String.eqb k k' then (k', v) :: d' else (k', v') :: set k v d'
  end.

(** [dict(pairs)] *)
Definition of_items (pairs : list (string * V)) : t :=
  fold_left (fun d kv => set (fst kv) (snd kv) d) pairs [].

(** [k in d] *)
Definition mem (k : string) (d : t) : bool :=
  match get k d with
  | Some _ => true
  | None => false
  end.

Definition wf (d : t) : Prop := NoDup (keys d).

(** Equality of dictionaries as Python's [==] sees it: the same keys bound
    to the same values, whatever the insertion order. *)
Definition equiv (d1 d2 : t) : Prop := forall k, get k d1 = get k d2.
End WithValues.
Arguments t V : clear implicits.
End Dict.

Definition record := Dict.t value.
Definition template := Dict.t value.

(** ** The [csv] module

    A file is kept as the list of rows of cells that [csv.writer.writerow] was
    given, which is what [csv.reader] parses back out of the text, but for two
    things. Both methods open the file in text mode without the [newline]
    argument, so on reading every carriage return (with the line feed after
    it, if any) inside a cell arrives as one line feed. And the reader
    refuses a cell of more than [csv.field_size_limit()] characters. *)

Module Csv.

Definition row := list string.
Definition file := list row.

Definition CR : ascii := "013"%char.
Definition LF : ascii := "010"%char.

Fixpoint universal_newlines (s : string) : string :=
  match s with
  | EmptyString => EmptyString
  | String c s' =>
      if Ascii.eqb c CR then
        match s' with
        | String c' s'' =>
            if Ascii.eqb c' LF then String LF (universal_newlines s'')
            else String LF (universal_newlines s')
        | EmptyString => String LF EmptyString
        end
      else String c (universal_newlines s')
  end.

(** [csv.field_size_limit()], which the code leaves at its default. *)
Definition field_size_limit : Z := 131072.

Definition within_limit (s : string) : bool :=
  (Z.of_nat (String.length s) <=? field_size_limit)%Z.

(** One line as [csv.reader] yields it from a file opened with mode ["r"]:
    its cells after the translation of newlines, or [csv.Error] when one of
    them is longer than the limit. *)
Definition read_row (r : row) : result row :=
  let cells := map universal_newlines r in
  if forallb within_limit cells then Ok cells else Raise CsvError.

(** The lines in the order the reader comes to them. *)
Definition reader (f : file) : list (result row) := map read_row f.

(** [str(n)] for an [int], when it returns. *)
Definition str_int (n : Z) : string := NilZero.string_of_int (Z.to_int n).

(** [sys.get_int_max_str_digits()], the default. *)
Definition max_str_digits : Z := 4300.

(** Whether [str(v)] returns. For an integer of more than 4300 digits it
    raises [ValueError] (CPython 3.11, and 3.7 to 3.10 from their security
    releases of 2022 on; before that, every integer converts). *)
Definition str_ok (v : value) : bool :=
  match v with
  | VInt n =>
      (Z.of_nat (String.length (str_int (Z.abs n))) <=? max_str_digits)%Z
  | _ => true
  end.

(** The text [csv.writer] writes for a value: [None] is the empty string, a
    string is itself, anything else goes through [str]. *)
Definition text (v : value) : string :=
  match v with
  | VNone => EmptyString
  | VStr s => s
  | VInt n => str_int n
  end.

Definition cell (v : value) : result string :=
  if str_ok v then Ok (text v) else Raise ValueError.

(** [DictWriter._dict_to_list] with the defaults: [restval] is the empty
    string and [extrasaction] is [raise]. *)
Definition _dict_to_list (fieldnames : list string) (rowdict : record)
  : result (list value) :=
  let wrong_fields :=
    filter (fun k => negb (existsb (String.eqb k) fieldnames))
           (Dict.keys rowdict) in
  match wrong_fields with
  | _ :: _ => Raise ValueError
  | [] =>
      Ok (map (fun key => Dict.get_default key (VStr EmptyString) rowdict)
              fieldnames)
  end.

(** [DictWriter.writerow]: the line of cells, which [csv.writer] writes only
    when it has made a cell of every value. *)
Definition writerow (fieldnames : list string) (rowdict : record)
  : result row :=
  values <- _dict_to_list fieldnames rowdict ;; map_result cell values.

(** [DictWriter.writeheader]: the row [dict(zip(fieldnames, fieldnames))]. *)
Definition header_row (fieldnames : list string) : row := fieldnames.

(** One step of [DictReader.__next__] on a non-blank row, with the defaults
    [restkey=None] and [restval=None]. A row longer than the header gets its
    surplus cells as a list under the key [None]; such a dictionary is not a
    [record], and the model answers [None] there. *)
Definition DictReader_row (fieldnames : list string) (r : row)
  : option record :=
  let d := Dict.of_items (combine fieldnames (map VStr r)) in
  let lf := List.length fieldnames in
  let lr := List.length r in
  if Nat.ltb lf lr then None
  else Some (fold_left (fun d key => Dict.set key VNone d)
                       (skipn lr fieldnames) d).

(** The dictionaries [DictReader] yields after the header, and the exception
    that ends the iteration, if one does: blank rows are skipped, and what
    comes after a line the reader refuses is not looked at. *)
Fixpoint DictReader_rows (fieldnames : list string) (rs : list (result row))
  : option (list record * option exn) :=
  match rs with
  | [] => Some ([], None)
  | Raise e :: _ => Some ([], Some e)
  | Ok [] :: rs' => DictReader_rows fieldnames rs'
  | Ok r :: rs' =>
      match DictReader_row fieldnames r with
      | None => None
      | Some d =>
          match DictReader_rows fieldnames rs' with
          | None => None
          | Some (ds, e) => Some (d :: ds, e)
          end
      end
  end.

(** [csv.DictReader] over a file: the first row read is the header. *)
Definition DictReader (f : file) : option (list record * option exn) :=
  match reader f with
  | [] => Some ([], None)
  | Raise e :: _ => Some ([], Some e)
  | Ok fieldnames :: rs => DictReader_rows fieldnames rs
  end.

End Csv.

(** ** The file system

    What [open] depends on. [resolve] is the file a path leads to: two paths
    with the same result are one file. [store] has the contents of the
    regular files. [open_error] is the exception that [open] raises for a
    path in a mode, when it raises one for a reason other than the absence of
    the file: a directory that does not exist, a directory in the place of
    the file, a missing permission. *)

Inductive mode : Type := ReadMode | WriteMode.

Record filesystem : Type := mkFS {
  resolve : string -> string;
  store : string -> option Csv.file;
  open_error : mode -> string -> option exn
}.

(** The contents of the file that a path leads to. *)
Definition content (fs : filesystem) (path : string) : option Csv.file :=
  store fs (resolve fs path).

Coercion content : filesystem >-> Funclass.

Definition fs_write (fs : filesystem) (path : string) (f : Csv.file)
  : filesystem :=
  mkFS (resolve fs)
       (fun file => if String.eqb file (resolve fs path) then Some f
                    else store fs file)
       (open_error fs).

(** [open(path, "r")] *)
Definition open_r (fs : filesystem) (path : string) : result Csv.file :=
  match open_error fs ReadMode path with
  | Some e => Raise e
  | None =>
      match fs path with
      | Some f => Ok f
      | None => Raise FileNotFoundError
      end
  end.

(** [open(path, "w")]: the file is made, or emptied if it is there. *)
Definition open_w (fs : filesystem) (path : string) : result filesystem :=
  match open_error fs WriteMode path with
  | Some e => Raise e
  | None => Ok (fs_write fs path [])
  end.

(** A file system for the examples: a path leads to the same file as the
    path without its repeated slashes, and [open] raises for no other reason
    than the absence of a file. *)
Fixpoint collapse_slashes (s : string) : string :=
  match s with
  | EmptyString => EmptyString
  | String c s' =>
      let t := collapse_slashes s' in
      match t with
      | String c' _ =>
          if Ascii.eqb c "/" && Ascii.eqb c' "/" then t else String c t
      | EmptyString => String c t
      end
  end.

Definition posix_fs (files : string -> option Csv.file) : filesystem :=
  mkFS collapse_slashes files (fun _ _ => None).

Definition empty_fs : filesystem := posix_fs (fun _ => None).

(** [os.path.join(a, b)] of [posixpath]. *)
Definition startswith_sep (s : string) : bool :=
  match s with
  | String c _ => Ascii.eqb c "/"
  | EmptyString => false
  end.

Fixpoint endswith_sep (s : string) : bool :=
  match s with
  | EmptyString => false
  | String c EmptyString => Ascii.eqb c "/"
  | String _ s' => endswith_sep s'
  end.

Definition os_path_join (a b : string) : string :=
  if startswith_sep b then b
  else if String.eqb a EmptyString || endswith_sep a then (a ++ b)%string
  else (a ++ "/" ++ b)%string.

(** ** The table object *)

(** The two options of [connect_info] the methods read. *)
Record ConnectInfo : Type := mkConnectInfo {
  directory : string;
  file_name : string
}.

(** The attributes of a [CSVDataTable] instance. [_data] is kept as its
    entries; [columns] exists only once [save] has assigned it. *)
Record CSVDataTable : Type := mkCSVDataTable {
  table_name : string;
  connect_info : ConnectInfo;
  _key_columns : list string;
  debug : bool;
  _rows : list record;
  columns : option (list string)
}.

Definition with_rows (self : CSVDataTable) (rows : list record)
  : CSVDataTable :=
  mkCSVDataTable (table_name self) (connect_info self) (_key_columns self)
                 (debug self) rows (columns self).

Definition with_columns (self : CSVDataTable) (cols : list string)
  : CSVDataTable :=
  mkCSVDataTable (table_name self) (connect_info self) (_key_columns self)
                 (debug self) (_rows self) (Some cols).

Definition _add_row (self : CSVDataTable) (r : record) : CSVDataTable :=
  with_rows self (_rows self ++ [r]).

(** [_load]: the file named [os.path.join(directory, file_name)] is opened for
    reading and every dictionary of its [DictReader] is added as a row; when
    the reader refuses a line, the rows read before it have been added. The
    outer [option] is [None] only where [Csv.DictReader] is. *)
Definition _load (self : CSVDataTable) (fs : filesystem)
  : option (result unit * CSVDataTable) :=
  let dir_info := directory (connect_info self) in
  let file_n := file_name (connect_info self) in
  let full_name := os_path_join dir_info file_n in
  match open_r fs full_name with
  | Raise e => Some (Raise e, self)
  | Ok txt_file =>
      match Csv.DictReader txt_file with
      | None => None
      | Some (csv_d_rdr, stop) =>
          Some (match stop with
                | None => Ok tt
                | Some e => Raise e
                end,
                fold_left _add_row csv_d_rdr self)
      end
  end.

(** The constructor. Its [load] argument is never read; [rows], when given, is
    copied and nothing is loaded. *)
Definition __init__ (table_name : string) (connect_info : ConnectInfo)
    (key_columns : list string) (debug : bool) (rows : option (list record))
    (fs : filesystem) : option (result CSVDataTable) :=
  let self :=
    mkCSVDataTable table_name connect_info key_columns debug [] None in
  match rows with
  | Some rows => Some (Ok (with_rows self rows))
  | None =>
      match _load self fs with
      | None => None
      | Some (Ok _, self') => Some (Ok self')
      | Some (Raise e, _) => Some (Raise e)
      end
  end.

(** The loop [for r in self._rows: csvw.writerow(r)] of [save]; [out] is what
    the file holds so far, and it keeps that when a row is refused. *)
Fixpoint save_rows (fieldnames : list string) (rows : list record)
    (out : Csv.file) : result unit * Csv.file :=
  match rows with
  | [] => (Ok tt, out)
  | r :: rows' =>
      match Csv.writerow fieldnames r with
      | Ok cells => save_rows fieldnames rows' (out ++ [cells])
      | Raise e => (Raise e, out)
      end
  end.

(** [save]: the file named [directory + "/" + file_name] is opened with mode
    ["w"]. When [open] raises, nothing has changed; when it returns, the file
    is empty, and that before the first row is looked at. *)
Definition save (self : CSVDataTable) (fs : filesystem)
  : result unit * CSVDataTable * filesystem :=
  let fn :=
    (directory (connect_info self) ++ "/"
       ++ file_name (connect_info self))%string in
  match open_w fs fn with
  | Raise e => (Raise e, self, fs)
  | Ok opened =>
      let csvfile : Csv.file := [] in
      match _rows self with
      | [] => (Raise IndexError, self, opened)
      | r0 :: _ =>
          let self' := with_columns self (Dict.keys r0) in
          let csvfile := csvfile ++ [Csv.header_row (Dict.keys r0)] in
          let '(res, csvfile) :=
            save_rows (Dict.keys r0) (_rows self') csvfile in
          (res, self', fs_write fs fn csvfile)
      end
  end.

Definition get_key_column (self : CSVDataTable) : list string :=
  _key_columns self.

Definition get_rows (self : CSVDataTable) : list record := _rows self.

(** [_project]: with no field list the row itself is returned; otherwise a
    dictionary is filled field by field, and [row[f]] raises [KeyError] at the
    first field the row lacks. *)
Definition _project (row : record) (field_list : option (list string))
  : result record :=
  match field_list with
  | None => Ok row
  | Some field_list =>
      for_each (fun result f => v <- Dict.getitem f row ;;
                                Ok (Dict.set f v result))
               field_list []
  end.

(** The loop of [matches_template] over [template.items()]: it breaks with
    [False] at the first entry whose value differs from
    [row.get(k, None)]. *)
Fixpoint matches_items (row : record) (items : list (string * value))
  : bool :=
  match items with
  | [] => true
  | (k, v) :: items' =>
      if negb (value_eqb v (Dict.get_default k VNone row)) then false
      else matches_items row items'
  end.

Definition matches_template (row : record) (template : option template)
  : bool :=
  match template with
  | None => true
  | Some template => matches_items row (Dict.items template)
  end.

(** [find_by_primary_key] builds [dictionary] and returns [None]. *)
Definition find_by_primary_key (self : CSVDataTable) (key_fields : list value)
    (field_list : option (list string)) : result (option record) :=
  let dictionary := Dict.of_items (combine (_key_columns self) key_fields) in
  Ok None.

(** The loop of [find_by_template] over [reversed(self._rows)]. *)
Definition find_by_template (self : CSVDataTable) (template : option template)
    (field_list : option (list string)) (limit offset : option Z)
    (order_by : option (list string)) : result (list record) :=
  for_each (fun result r =>
              if matches_template r template then
                new_r <- _project r field_list ;; Ok (result ++ [new_r])
              else Ok result)
           (rev (_rows self)) [].

(** [delete_by_template] returns its counter, which is still [0]. *)
Definition delete_by_template (self : CSVDataTable)
    (template : option template) : result Z * CSVDataTable :=
  let counter := 0%Z in
  (Ok counter, self).

(** [insert] has a docstring for a body: it returns [None]. *)
Definition insert (self : CSVDataTable) (new_record : record)
  : result unit * CSVDataTable :=
  (Ok tt, self).

(** ** Notions the statements use *)

(** The values a record has under the key columns, in their order. *)
Definition key_of (key_columns : list string) (r : record)
  : list (option value) :=
  map (fun k => Dict.get k r) key_columns.

(** No two rows of the table have the same key. *)
Definition keys_unique (self : CSVDataTable) : Prop :=
  NoDup (map (key_of (_key_columns self)) (_rows self)).

(** A sequence of [insert] calls, whatever each of them answers. *)
Definition insert_all (self : CSVDataTable) (records : list record)
  : CSVDataTable :=
  fold_left (fun t r => snd (insert t r)) records self.










(** ** The sample of rows that [__str__] prints

    [__str__] hands a list of rows to [pandas.DataFrame] and returns the text
    pandas makes of it, after the configuration as JSON. The text is not
    modelled; [rows_to_print] is the list handed over. *)

(** Where an index of a slice falls in a list of length [len]: a negative
    index counts from the end, and both ways the index is clipped. *)
Definition slice_index (len i : Z) : Z :=
  if (i <? 0)%Z then Z.max 0 (len + i) else Z.min i len.

(** [l[start:stop]] *)
Definition py_slice {A} (l : list A) (start stop : Z) : list A :=
  let len := Z.of_nat (List.length l) in
  let lo := slice_index len start in
  let hi := slice_index len stop in
  firstn (Z.to_nat (hi - lo)) (skipn (Z.to_nat lo) l).

Definition _rows_to_print : Z := 10.
Definition _no_of_separators : nat := 2.

(** The value of [rows_to_print] at the call of [pd.DataFrame]. In the second
    branch the table has more than ten rows, so [self._rows[0]] exists. *)
Definition rows_to_print (self : CSVDataTable) : list record :=
  let no_rows := Z.of_nat (List.length (_rows self)) in
  if (no_rows <=? _rows_to_print)%Z then py_slice (_rows self) 0 no_rows
  else
    let temp_r := (_rows_to_print / 2)%Z in
    let rows_to_print := py_slice (_rows self) 0 temp_r in
    let keys :=
      match _rows self with
      | r0 :: _ => Dict.keys r0
      | [] => []
      end in
    let tmp_row : record :=
      fold_left (fun tmp_row k => Dict.set k (VStr "***") tmp_row) keys [] in
    let rows_to_print := rows_to_print ++ repeat tmp_row _no_of_separators in
    rows_to_print ++ py_slice (_rows self) (- temp_r - 1) (-1).

(** The table of the running example: key column [id], two rows. *)
Definition example_rows : list record :=
  [ [("id", VInt 1); ("name", VStr "a")];
    [("id", VInt 2); ("name", VStr "b")] ].

Definition example_table : CSVDataTable :=
  mkCSVDataTable "t" (mkConnectInfo "data" "t.csv") ["id"] true
                 example_rows None.

(** * Facts about the embedding *)

(** ** Results and loops *)

Lemma bind_Ok_inv {A B} (c : result A) (k : A -> result B) (b : B) :
  bind c k = Ok b -> exists a, c = Ok a /\ k a = Ok b.
Proof.
  destruct c as [a|e]; simpl; intros H; [eauto | discriminate].
Qed.

Lemma for_each_ext_in {A S} (f g : S -> A -> result S) (xs : list A) :
  (forall acc x, In x xs -> f acc x = g acc x) ->
  forall acc, for_each f xs acc = for_each g xs acc.
Proof.
  induction xs as [|x xs IH]; intros Hfg acc; simpl; [reflexivity|].
  rewrite (Hfg acc x (or_introl eq_refl)).
  destruct (g acc x) as [acc'|e]; simpl; [|reflexivity].
  apply IH. intros a y Hy. apply Hfg. now right.
Qed.

(** ** Strings and values *)

Lemma existsb_eqb_In (k : string) (ks : list string) :
  existsb (String.eqb k) ks = true <-> In k ks.
Proof.
  rewrite existsb_exists. split.
  - intros [x [Hx Hk]]. apply String.eqb_eq in Hk. now subst.
  - intros H. exists k. split; [assumption | apply String.eqb_refl].
Qed.

Lemma existsb_eqb_not_In (k : string) (ks : list string) :
  existsb (String.eqb k) ks = false <-> ~ In k ks.
Proof.
  rewrite <- existsb_eqb_In. destruct (existsb _ ks); split; congruence.
Qed.

Lemma value_eqb_eq (a b : value) : value_eqb a b = true <-> a = b.
Proof.
  destruct a, b; simpl; split; intros H;
    try discriminate; try reflexivity.
  - apply String.eqb_eq in H. now subst.
  - inversion H. apply String.eqb_refl.
  - apply Z.eqb_eq in H. now subst.
  - inversion H. apply Z.eqb_refl.
Qed.

(** ** Dictionaries *)

Module DictFacts.
Section WithValues.
Context {V : Type}.
Implicit Types (d : Dict.t V) (k : string) (v : V).

Lemma get_set k k' v d :
  Dict.get k (Dict.set k' v d)
  = if String.eqb k k' then Some v else Dict.get k d.
Proof.
  induction d as [|[k0 v0] d IH]; simpl.
  - reflexivity.
  - destruct (String.eqb_spec k' k0) as [->|Hne]; simpl.
    + destruct (String.eqb k k0); reflexivity.
    + rewrite IH. destruct (String.eqb_spec k k0) as [->|Hk].
      * apply String.eqb_neq in Hne. rewrite String.eqb_sym in Hne.
        now rewrite Hne.
      * reflexivity.
Qed.

Lemma get_None k d : Dict.get k d = None <-> ~ In k (Dict.keys d).
Proof.
  induction d as [|[k0 v0] d IH]; simpl.
  - tauto.
  - destruct (String.eqb_spec k k0) as [->|Hne].
    + split; [discriminate | tauto].
    + rewrite IH. split; [intros H [E|HIn] | tauto]; congruence.
Qed.


Lemma keys_set k k' v d :
  In k (Dict.keys (Dict.set k' v d)) <-> k = k' \/ In k (Dict.keys d).
Proof.
  induction d as [|[k0 v0] d IH]; simpl.
  - intuition congruence.
  - destruct (String.eqb_spec k' k0) as [->|Hne]; simpl.
    + intuition congruence.
    + rewrite IH. intuition congruence.
Qed.

Lemma wf_set k v d : Dict.wf d -> Dict.wf (Dict.set k v d).
Proof.
  unfold Dict.wf. induction d as [|[k0 v0] d IH]; simpl; intros Hwf.
  - constructor; [intros [] | constructor].
  - inversion Hwf as [|? ? Hnotin Hnd]; subst.
    destruct (String.eqb_spec k k0) as [->|Hne]; simpl.
    + now constructor.
    + constructor; [|now apply IH].
      intros HIn. apply keys_set in HIn. destruct HIn; congruence.
Qed.

End WithValues.
End DictFacts.

(** ** Projection *)

Section Projection.
Variable row : record.

Local Abbreviation project_loop :=
  (for_each (fun result f => v <- Dict.getitem f row ;;
                             Ok (Dict.set f v result))).

Lemma project_loop_Ok fl : forall acc p,
  project_loop fl acc = Ok p ->
  (Dict.wf acc -> Dict.wf p) /\
  forall k, Dict.get k p
            = if existsb (String.eqb k) fl then Dict.get k row
              else Dict.get k acc.
Proof.
  induction fl as [|f fl IH]; intros acc p H; simpl in H.
  - injection H as <-. split; [trivial | reflexivity].
  - apply bind_Ok_inv in H. destruct H as [acc' [Hstep Hrest]].
    unfold Dict.getitem in Hstep.
    destruct (Dict.get f row) as [v|] eqn:Hf; simpl in Hstep;
      [|discriminate].
    injection Hstep as <-.
    destruct (IH _ _ Hrest) as [Hwf Hget]. split.
    + intros Hacc. apply Hwf. now apply DictFacts.wf_set.
    + intros k. rewrite Hget, DictFacts.get_set. simpl.
      destruct (String.eqb_spec k f) as [->|Hne]; simpl.
      * destruct (existsb _ fl); congruence.
      * reflexivity.
Qed.

Lemma project_loop_total fl : forall acc,
  (forall f, In f fl -> Dict.get f row <> None) ->
  exists p, project_loop fl acc = Ok p.
Proof.
  induction fl as [|f fl IH]; intros acc Hall; simpl.
  - eauto.
  - unfold Dict.getitem.
    destruct (Dict.get f row) as [v|] eqn:Hf; simpl.
    + apply IH. intros g Hg. apply Hall. now right.
    + exfalso. apply (Hall f); [now left | assumption].
Qed.

Lemma project_loop_KeyError fl : forall acc f,
  In f fl -> Dict.get f row = None ->
  exists k, In k fl /\ Dict.get k row = None /\
            project_loop fl acc = Raise (KeyError k).
Proof.
  induction fl as [|g fl IH]; intros acc f HIn Hf; [destruct HIn|].
  simpl. unfold Dict.getitem.
  destruct (Dict.get g row) as [v|] eqn:Hg; simpl.
  - destruct HIn as [->|HIn]; [congruence|].
    destruct (IH (Dict.set g v acc) f HIn Hf) as [k [Hk [Hnone Hraise]]].
    exists k. auto.
  - exists g. auto.
Qed.
End Projection.

(** C8. Projection: a field list naming a column the record lacks makes
    [_project] raise [KeyError] (for the first such column of the list); a
    field list whose columns are all present gives a dictionary that has
    exactly the listed columns, each with the record's value; with no field
    list the record itself is returned. *)
Theorem project_spec (row : record) :
  (forall fl f, In f fl -> Dict.get f row = None ->
     exists k, In k fl /\ Dict.get k row = None /\
               _project row (Some fl) = Raise (KeyError k)) /\
  (forall fl, (forall f, In f fl -> Dict.get f row <> None) ->
     exists p, _project row (Some fl) = Ok p /\ Dict.wf p /\
       forall k, Dict.get k p
                 = if existsb (String.eqb k) fl then Dict.get k row
                   else None) /\
  _project row None = Ok row.
Proof.
  split; [|split].
  - intros fl f HIn Hf. simpl. now apply project_loop_KeyError with f.
  - intros fl Hall. simpl.
    destruct (project_loop_total row fl [] Hall) as [p Hp].
    exists p. destruct (project_loop_Ok row fl [] p Hp) as [Hwf Hget].
    split; [assumption|]. split; [apply Hwf; constructor | exact Hget].
  - reflexivity.
Qed.

Lemma project_spec_witness :
  (exists k, _project [("id", VInt 1); ("name", VStr "a")]
                      (Some ["name"; "zip"]) = Raise (KeyError k)) /\
  (exists p, _project [("id", VInt 1); ("name", VStr "a")]
                      (Some ["name"]) = Ok p /\
             Dict.get "name" p = Some (VStr "a") /\
             Dict.get "id" p = None).
Proof.
  destruct (project_spec [("id", VInt 1); ("name", VStr "a")])
    as [Hraise [Hok _]].
  split.
  - destruct (Hraise ["name"; "zip"] "zip") as [k [_ [_ Hk]]].
    + simpl. auto.
    + reflexivity.
    + exists k. exact Hk.
  - destruct (Hok ["name"]) as [p [Hp [_ Hget]]].
    + intros f [<-|[]]. discriminate.
    + exists p. split; [exact Hp|]. split; apply Hget.
Defined.

(** C9. Projection is idempotent: when projecting [row] to [field_list]
    gives [p], projecting [p] to [field_list] gives [p] again. *)
Theorem project_idempotent (row : record) (field_list : option (list string))
    (p : record) :
  _project row field_list = Ok p -> _project p field_list = Ok p.
Proof.
  destruct field_list as [fl|]; simpl; intros H; [|reflexivity].
  rewrite <- H. apply for_each_ext_in. intros acc f HIn.
  destruct (project_loop_Ok row fl [] p H) as [_ Hget].
  unfold Dict.getitem. rewrite Hget.
  apply existsb_eqb_In in HIn. now rewrite HIn.
Qed.

Lemma project_idempotent_witness :
  _project [("name", VStr "b"); ("id", VInt 2)] (Some ["name"; "id"; "name"])
  = Ok [("name", VStr "b"); ("id", VInt 2)].
Proof.
  apply (project_idempotent [("id", VInt 2); ("name", VStr "b")]).
  reflexivity.
Defined.

(** ** Template matching and scans *)

Lemma matches_items_iff (row : record) (items : list (string * value)) :
  matches_items row items = true <->
  forall k v, In (k, v) items -> Dict.get_default k VNone row = v.
Proof.
  induction items as [|[k0 v0] items IH]; simpl.
  - split; [intros _ k v [] | reflexivity].
  - destruct (value_eqb v0 (Dict.get_default k0 VNone row)) eqn:E; simpl.
    + apply value_eqb_eq in E. rewrite IH. split.
      * intros H k v [[= <- <-]|HIn]; [now symmetry | now apply H].
      * intros H k v HIn. apply H. now right.
    + split; [discriminate|]. intros H.
      assert (Hv : value_eqb v0 (Dict.get_default k0 VNone row) = true).
      { apply value_eqb_eq. symmetry. apply H. now left. }
      congruence.
Qed.

Lemma map_result_Ok {A} (xs : list A) : map_result (fun x => Ok x) xs = Ok xs.
Proof.
  induction xs as [|x xs IH]; simpl; [reflexivity | now rewrite IH].
Qed.

Lemma filter_none {A} (f : A -> bool) (xs : list A) :
  (forall x, In x xs -> f x = false) -> filter f xs = [].
Proof.
  induction xs as [|x xs IH]; simpl; intros H; [reflexivity|].
  rewrite (H x (or_introl eq_refl)). apply IH. intros y Hy. apply H.
  now right.
Qed.

Section Scan.
Variables (template : option template) (field_list : option (list string)).

(** The scanning loop appends to [result], in the order of the scan, the
    projection of every row that matches. *)
Lemma scan_loop (rows : list record) : forall acc,
  for_each (fun result r =>
              if matches_template r template then
                new_r <- _project r field_list ;; Ok (result ++ [new_r])
              else Ok result) rows acc
  = (ys <- map_result (fun r => _project r field_list)
                      (filter (fun r => matches_template r template) rows) ;;
     Ok (acc ++ ys)).
Proof.
  induction rows as [|r rows IH]; intros acc; simpl.
  - now rewrite app_nil_r.
  - destruct (matches_template r template); simpl; [|apply IH].
    destruct (_project r field_list) as [y|e]; simpl; [|reflexivity].
    rewrite IH.
    destruct (map_result _ _) as [ys|e]; simpl; [|reflexivity].
    now rewrite <- app_assoc.
Qed.
End Scan.

(** What [find_by_template] computes, and what it computes without a field
    list. *)
Lemma find_by_template_scan (self : CSVDataTable)
    (template : option template) (field_list : option (list string))
    (limit offset : option Z) (order_by : option (list string)) :
  find_by_template self template field_list limit offset order_by
  = map_result (fun r => _project r field_list)
               (filter (fun r => matches_template r template)
                       (rev (_rows self))).
Proof.
  unfold find_by_template. rewrite scan_loop.
  destruct (map_result _ _); reflexivity.
Qed.

Lemma find_by_template_all_fields (self : CSVDataTable)
    (template : option template) (limit offset : option Z)
    (order_by : option (list string)) :
  find_by_template self template None limit offset order_by
  = Ok (filter (fun r => matches_template r template) (rev (_rows self))).
Proof.
  rewrite find_by_template_scan. simpl. apply map_result_Ok.
Qed.

(** C4, as the code has it. A record matches a template iff every
    (column, value) pair of the template has its value equal to
    [row.get(column, None)], the record's value at that column or [None]
    where the record lacks the column; an absent template and an empty one
    select every row (last loaded first); a template that binds a column to
    a value which no row gives for that column, in that reading, selects
    nothing. *)
Theorem matches_template_spec :
  (forall row t,
     matches_template row (Some t) = true <->
     forall k v, In (k, v) (Dict.items t) ->
                 Dict.get_default k VNone row = v) /\
  (forall row, matches_template row None = true) /\
  (forall self limit offset order_by,
     find_by_template self None None limit offset order_by
     = Ok (rev (_rows self))) /\
  (forall self limit offset order_by,
     find_by_template self (Some []) None limit offset order_by
     = Ok (rev (_rows self))) /\
  (forall self t c v field_list limit offset order_by,
     In (c, v) (Dict.items t) ->
     (forall r, In r (_rows self) -> Dict.get_default c VNone r <> v) ->
     find_by_template self (Some t) field_list limit offset order_by
     = Ok []).
Proof.
  split; [|split; [|split; [|split]]].
  - intros row t. apply matches_items_iff.
  - reflexivity.
  - intros self limit offset order_by.
    rewrite find_by_template_all_fields.
    simpl. f_equal. apply forallb_filter_id. now apply forallb_forall.
  - intros self limit offset order_by.
    rewrite find_by_template_all_fields.
    simpl. f_equal. apply forallb_filter_id. now apply forallb_forall.
  - intros self t c v field_list limit offset order_by HIn Hno.
    rewrite find_by_template_scan.
    rewrite filter_none; [reflexivity|].
    intros r Hr. apply in_rev in Hr.
    destruct (matches_template r (Some t)) eqn:E; [|reflexivity].
    exfalso. apply (Hno r Hr).
    apply (proj1 (matches_items_iff r (Dict.items t)) E c v HIn).
Qed.

Lemma matches_template_spec_witness :
  matches_template [("id", VInt 1)] (Some [("id", VInt 1)]) = true /\
  find_by_template example_table (Some [("name", VStr "z")])
                   (Some ["id"]) None None None = Ok [].
Proof.
  destruct matches_template_spec as [Hiff [_ [_ [_ Hnone]]]]. split.
  - apply Hiff. intros k v [[= <- <-]|[]]. reflexivity.
  - apply (Hnone example_table _ "name" (VStr "z")).
    + simpl. auto.
    + intros r [<-|[<-|[]]]; discriminate.
Defined.

(** C4 as it is worded does not hold: the record [{id: 1}] has no column
    [zip], yet it matches the template [{zip: None}], and a scan with that
    template returns it. *)
Lemma matches_template_counterexample :
  ~ (matches_template [("id", VInt 1)] (Some [("zip", VNone)]) = true <->
     forall k v, In (k, v) [("zip", VNone)] ->
                 Dict.get k [("id", VInt 1)] = Some v)
  /\ (forall r, In r [[("id", VInt 1)]] -> Dict.get "zip" r <> Some VNone)
  /\ find_by_template
       (mkCSVDataTable "t" (mkConnectInfo "data" "t.csv") ["id"] true
                       [[("id", VInt 1)]] None)
       (Some [("zip", VNone)]) None None None None
     = Ok [[("id", VInt 1)]].
Proof.
  split; [|split].
  - intros [H _]. specialize (H eq_refl "zip" VNone (or_introl eq_refl)).
    discriminate.
  - intros r [<-|[]]. discriminate.
  - reflexivity.
Qed.

(** C10. A template entry with the value [None] matches a record that lacks
    the column, so a scan with the template [{c: None}] returns every row
    without a column [c]. *)
Theorem null_template_matches_absent_column :
  (forall (r : record) (c : string),
     Dict.get c r = None -> matches_template r (Some [(c, VNone)]) = true) /\
  (forall self (r : record) (c : string) limit offset order_by,
     In r (_rows self) -> Dict.get c r = None ->
     exists found,
       find_by_template self (Some [(c, VNone)]) None limit offset order_by
       = Ok found /\ In r found).
Proof.
  assert (Hm : forall (r : record) c,
             Dict.get c r = None ->
             matches_template r (Some [(c, VNone)]) = true).
  { intros r c Hc. simpl. unfold Dict.get_default. now rewrite Hc. }
  split; [exact Hm|].
  intros self r c limit offset order_by HIn Hc.
  rewrite find_by_template_all_fields.
  eexists. split; [reflexivity|].
  apply filter_In. split; [now apply in_rev in HIn | now apply Hm].
Qed.

Lemma null_template_matches_absent_column_witness :
  matches_template [("id", VInt 1)] (Some [("zip", VNone)]) = true /\
  exists found,
    find_by_template example_table (Some [("zip", VNone)]) None None None None
    = Ok found /\ In [("id", VInt 2); ("name", VStr "b")] found.
Proof.
  destruct null_template_matches_absent_column as [Hm Hfind]. split.
  - apply Hm. reflexivity.
  - apply Hfind.
    + simpl. auto.
    + reflexivity.
Defined.

(** ** The methods left unwritten *)

Lemma example_table_keys_unique : keys_unique example_table.
Proof.
  unfold keys_unique. simpl. repeat constructor; simpl.
  - intros [H|[]]. discriminate.
  - intros [].
Qed.

(** [insert] changes nothing, so whatever holds of the rows before a run of
    inserts holds after it. *)
Lemma insert_all_unchanged (self : CSVDataTable) (records : list record) :
  insert_all self records = self.
Proof.
  unfold insert_all. induction records as [|r rs IH]; simpl; auto.
Qed.

(** C1, at the input where the code departs from it: the example table has
    unique keys and a row with [id = 1]; inserting another record with
    [id = 1] returns without an exception (and leaves the table as it
    was). *)
Theorem insert_duplicate_key_returns :
  keys_unique example_table /\
  (exists r, In r (_rows example_table) /\
             key_of (_key_columns example_table) r
             = key_of (_key_columns example_table)
                      [("id", VInt 1); ("name", VStr "x")]) /\
  insert example_table [("id", VInt 1); ("name", VStr "x")]
  = (Ok tt, example_table).
Proof.
  split; [exact example_table_keys_unique|]. split; [|reflexivity].
  exists [("id", VInt 1); ("name", VStr "a")]. split; [now left | reflexivity].
Qed.

(** C2, at the input where the code departs from it: the example table has
    the key column [id] and a row with [id = 1], one key value is given for
    the one key column, and [find_by_primary_key] returns [None] instead of
    that row. *)
Theorem find_by_primary_key_returns_None :
  List.length [VInt 1] = List.length (_key_columns example_table) /\
  In [("id", VInt 1); ("name", VStr "a")] (_rows example_table) /\
  key_of (_key_columns example_table) [("id", VInt 1); ("name", VStr "a")]
  = map Some [VInt 1] /\
  find_by_primary_key example_table [VInt 1] None = Ok None.
Proof.
  repeat split. now left.
Qed.

(** C5, at the input where the code departs from it: one row of the example
    table matches the template [{id: 1}], yet [delete_by_template] returns
    [0] and the table still has the row. *)
Theorem delete_by_template_returns_zero :
  filter (fun r => matches_template r (Some [("id", VInt 1)]))
         (_rows example_table)
  = [[("id", VInt 1); ("name", VStr "a")]] /\
  delete_by_template example_table (Some [("id", VInt 1)])
  = (Ok 0%Z, example_table).
Proof.
  split; reflexivity.
Qed.

(** ** Saving and loading *)


Lemma content_fs_write_other (fs : filesystem) (path p : string)
    (f : Csv.file) :
  resolve fs p <> resolve fs path -> fs_write fs path f p = fs p.
Proof.
  intros H. unfold content, fs_write. simpl.
  apply String.eqb_neq in H. now rewrite H.
Qed.

(** C7 as it is worded does not hold: saving a table without rows raises
    [IndexError], and the backing file, which held a header and a row, is
    empty afterwards. *)
Lemma save_empty_counterexample :
  _rows (with_rows example_table []) = [] /\
  fst (fst (save (with_rows example_table [])
                 (fs_write empty_fs "data/t.csv"
                           [["id"; "name"]; ["1"; "a"]])))
  = Raise IndexError /\
  Raise IndexError <> Raise (A := unit) (UserDefined "EmptyTableError") /\
  fs_write empty_fs "data/t.csv" [["id"; "name"]; ["1"; "a"]] "data/t.csv"
  = Some [["id"; "name"]; ["1"; "a"]] /\
  snd (save (with_rows example_table [])
            (fs_write empty_fs "data/t.csv"
                      [["id"; "name"]; ["1"; "a"]])) "data/t.csv"
  = Some [].
Proof.
  repeat split; try reflexivity. discriminate.
Qed.

(** C7, as the code has it: saving a table without rows raises, and writes
    no header and no row. When [open] raises, that is the exception and
    nothing has changed. When [open] returns, the exception is [IndexError];
    the table is unchanged and the backing file, opened for writing before
    the rows are looked at, is left empty. *)
Theorem save_empty_raises (self : CSVDataTable) (fs : filesystem) :
  _rows self = [] ->
  save self fs
  = match open_error fs WriteMode
                     (directory (connect_info self) ++ "/"
                        ++ file_name (connect_info self))%string with
    | Some e => (Raise e, self, fs)
    | None =>
        (Raise IndexError, self,
         fs_write fs (directory (connect_info self) ++ "/"
                        ++ file_name (connect_info self))%string [])
    end.
Proof.
  intros H. unfold save, open_w.
  destruct (open_error fs WriteMode _); [reflexivity|]. now rewrite H.
Qed.

Lemma save_empty_raises_witness :
  save (with_rows example_table []) empty_fs
  = (Raise IndexError, with_rows example_table [],
     fs_write empty_fs "data/t.csv" []) /\
  save (with_rows example_table [])
       (mkFS collapse_slashes (fun _ => None)
             (fun _ _ => Some FileNotFoundError))
  = (Raise FileNotFoundError, with_rows example_table [],
     mkFS collapse_slashes (fun _ => None)
          (fun _ _ => Some FileNotFoundError)).
Proof.
  split.
  - apply (save_empty_raises (with_rows example_table []) empty_fs).
    reflexivity.
  - apply (save_empty_raises
             (with_rows example_table [])
             (mkFS collapse_slashes (fun _ => None)
                   (fun _ _ => Some FileNotFoundError))).
    reflexivity.
Defined.



Lemma add_rows (ds : list record) : forall self,
  fold_left _add_row ds self = with_rows self (_rows self ++ ds).
Proof.
  induction ds as [|d ds IH]; intros self; simpl.
  - rewrite app_nil_r. now destruct self.
  - rewrite IH. unfold _add_row, with_rows. simpl.
    now rewrite <- app_assoc.
Qed.




Section Uniform.
Variable cols : list string.

(** The cells [DictWriter] makes of a row for the header [cols]. *)
Local Abbreviation texts_of :=
  (fun r : record =>
     map (fun key => Csv.text (Dict.get_default key (VStr EmptyString) r))
         cols).








End Uniform.




(** * Further properties of the methods *)

(** ** More on dictionaries *)

Lemma get_app_notin {V} (k : string) (d1 d2 : Dict.t V) :
  ~ In k (Dict.keys d1) -> Dict.get k (d1 ++ d2) = Dict.get k d2.
Proof.
  induction d1 as [|[k0 v0] d1 IH]; simpl; intros H; [reflexivity|].
  destruct (String.eqb_spec k k0) as [->|Hne]; [tauto|].
  apply IH. tauto.
Qed.

Lemma set_notin {V} (k : string) (v : V) (d : Dict.t V) :
  ~ In k (Dict.keys d) -> Dict.set k v d = d ++ [(k, v)].
Proof.
  induction d as [|[k0 v0] d IH]; simpl; intros H; [reflexivity|].
  destruct (String.eqb_spec k k0) as [->|Hne]; [tauto|].
  rewrite IH; tauto.
Qed.

(** ** Projection, continued *)

Section ProjectionOrder.
Variable row : record.

Local Abbreviation project_step :=
  (fun (result : record) f => v <- Dict.getitem f row ;;
                              Ok (Dict.set f v result)).

Lemma project_loop_keys fl : forall acc p,
  NoDup fl ->
  (forall f, In f fl -> ~ In f (Dict.keys acc)) ->
  for_each project_step fl acc = Ok p ->
  Dict.keys p = Dict.keys acc ++ fl.
Proof.
  induction fl as [|f fl IH]; intros acc p Hnd Hfresh H; simpl in H.
  - injection H as <-. now rewrite app_nil_r.
  - apply bind_Ok_inv in H. destruct H as [acc' [Hstep Hrest]].
    unfold Dict.getitem in Hstep.
    destruct (Dict.get f row) as [v|]; simpl in Hstep; [|discriminate].
    injection Hstep as <-.
    inversion Hnd as [|? ? Hf Hnd']; subst.
    rewrite set_notin in Hrest by (apply Hfresh; now left).
    assert (Hfresh' : forall g, In g fl ->
                                ~ In g (Dict.keys (acc ++ [(f, v)]))).
    { intros g Hg HIn. unfold Dict.keys in HIn. rewrite map_app in HIn.
      apply in_app_or in HIn. destruct HIn as [HIn|[<-|[]]].
      - apply (Hfresh g); [now right | exact HIn].
      - contradiction. }
    rewrite (IH _ _ Hnd' Hfresh' Hrest).
    unfold Dict.keys. rewrite map_app, <- app_assoc. reflexivity.
Qed.

Lemma project_loop_self (suf : record) : forall pre,
  row = pre ++ suf -> Dict.wf row ->
  for_each project_step (Dict.keys suf) pre = Ok row.
Proof.
  induction suf as [|[k v] suf IH]; intros pre Hrow Hwf; simpl.
  - rewrite app_nil_r in Hrow. now subst.
  - assert (Hk : ~ In k (Dict.keys pre)).
    { unfold Dict.wf, Dict.keys in Hwf. rewrite Hrow, map_app in Hwf.
      simpl in Hwf. apply NoDup_remove_2 in Hwf. intros HIn. apply Hwf.
      apply in_or_app. now left. }
    unfold Dict.getitem. rewrite Hrow at 1.
    rewrite get_app_notin by exact Hk. simpl. rewrite String.eqb_refl. simpl.
    rewrite set_notin by exact Hk.
    apply IH; [|exact Hwf]. now rewrite <- app_assoc.
Qed.
End ProjectionOrder.

(** X1. Projecting a record on its own columns, in their order, gives the
    record back. *)
Theorem project_own_keys (row : record) :
  Dict.wf row -> _project row (Some (Dict.keys row)) = Ok row.
Proof.
  intros Hwf. simpl. now apply project_loop_self.
Qed.

Lemma project_own_keys_witness :
  _project [("id", VInt 1); ("name", VStr "a")] (Some ["id"; "name"])
  = Ok [("id", VInt 1); ("name", VStr "a")].
Proof.
  apply (project_own_keys [("id", VInt 1); ("name", VStr "a")]).
  repeat constructor; simpl; intuition discriminate.
Defined.

(** X2. With a field list without repetition, the columns of the projection
    are the field list, in its order (not in the order of the record). *)
Theorem project_keys_order (row : record) (fl : list string) (p : record) :
  NoDup fl -> _project row (Some fl) = Ok p -> Dict.keys p = fl.
Proof.
  intros Hnd H. simpl in H.
  apply (project_loop_keys row fl [] p Hnd) in H; [exact H|].
  intros f _ [].
Qed.

Lemma project_keys_order_witness :
  Dict.keys [("name", VStr "a"); ("id", VInt 1)] = ["name"; "id"].
Proof.
  apply (project_keys_order [("id", VInt 1); ("name", VStr "a")]).
  - repeat constructor; simpl; intuition discriminate.
  - reflexivity.
Defined.

(** X3. Projections compose: after a projection to [fl1], projecting to a
    list [fl2] of fields that all occur in [fl1] gives what projecting the
    original record to [fl2] gives. *)
Theorem project_project (row : record) (fl1 fl2 : list string) (p : record) :
  _project row (Some fl1) = Ok p ->
  incl fl2 fl1 ->
  _project p (Some fl2) = _project row (Some fl2).
Proof.
  intros H Hincl. simpl. apply for_each_ext_in. intros acc f HIn.
  destruct (project_loop_Ok row fl1 [] p H) as [_ Hget].
  unfold Dict.getitem. rewrite Hget.
  assert (E : existsb (String.eqb f) fl1 = true).
  { apply existsb_eqb_In. now apply Hincl. }
  now rewrite E.
Qed.

Lemma project_project_witness :
  _project [("name", VStr "a"); ("id", VInt 1)] (Some ["id"])
  = _project [("id", VInt 1); ("name", VStr "a"); ("zip", VNone)]
             (Some ["id"]).
Proof.
  apply (project_project _ ["name"; "id"]).
  - reflexivity.
  - intros f [<-|[]]. simpl. auto.
Defined.

(** ** Matching, continued *)

Lemma get_default_equiv (row1 row2 : record) (k : string) (v : value) :
  Dict.get k row1 = Dict.get k row2 ->
  Dict.get_default k v row1 = Dict.get_default k v row2.
Proof.
  unfold Dict.get_default. now intros ->.
Qed.

(** X4. Matching looks at the bindings only: two records with the same
    columns and values, and two templates with the same entries, in whatever
    order each was filled, give the same answer. *)
Theorem matches_template_order_independent (row1 row2 : record)
    (t1 t2 : template) :
  Dict.equiv row1 row2 -> Permutation t1 t2 ->
  matches_template row1 (Some t1) = matches_template row2 (Some t2).
Proof.
  intros Hrow Hperm. simpl. unfold Dict.items.
  apply eq_true_iff_eq. rewrite !matches_items_iff. split; intros H k v HIn.
  - rewrite <- (get_default_equiv row1 row2 k VNone (Hrow k)).
    apply H. apply Permutation_sym in Hperm.
    now apply (Permutation_in _ Hperm).
  - rewrite (get_default_equiv row1 row2 k VNone (Hrow k)).
    apply H. now apply (Permutation_in _ Hperm).
Qed.

Lemma matches_template_order_independent_witness :
  matches_template [("id", VInt 1); ("name", VStr "a")]
                   (Some [("name", VStr "a"); ("id", VInt 1)])
  = matches_template [("name", VStr "a"); ("id", VInt 1)]
                     (Some [("id", VInt 1); ("name", VStr "a")]).
Proof.
  apply matches_template_order_independent.
  - intros k. simpl.
    destruct (String.eqb_spec k "id") as [Eid|Hid],
             (String.eqb_spec k "name") as [Ename|Hname];
      try reflexivity.
    subst k. discriminate.
  - apply perm_swap.
Defined.

(** X5. A projection that keeps every column the template names matches the
    template exactly when the record does. *)
Theorem project_preserves_match (row : record) (fl : list string)
    (p : record) (t : template) :
  _project row (Some fl) = Ok p ->
  incl (Dict.keys t) fl ->
  matches_template p (Some t) = matches_template row (Some t).
Proof.
  intros H Hincl. simpl. unfold Dict.items.
  destruct (project_loop_Ok row fl [] p H) as [_ Hget].
  assert (Hk : forall k v, In (k, v) t ->
                           Dict.get_default k VNone p
                           = Dict.get_default k VNone row).
  { intros k v HIn. apply get_default_equiv. rewrite Hget.
    assert (E : existsb (String.eqb k) fl = true).
    { apply existsb_eqb_In, Hincl. apply (in_map fst) in HIn. exact HIn. }
    now rewrite E. }
  apply eq_true_iff_eq. rewrite !matches_items_iff.
  split; intros Hm k v HIn.
  - rewrite <- (Hk k v HIn). now apply Hm.
  - rewrite (Hk k v HIn). now apply Hm.
Qed.

Lemma project_preserves_match_witness :
  matches_template [("name", VStr "a")] (Some [("name", VStr "a")])
  = matches_template [("id", VInt 1); ("name", VStr "a")]
                     (Some [("name", VStr "a")]).
Proof.
  apply (project_preserves_match _ ["name"]).
  - reflexivity.
  - intros k H. exact H.
Defined.

(** ** Scans, continued *)

Lemma map_result_Forall2 {A B} (f : A -> result B) (xs : list A) :
  forall ys, map_result f xs = Ok ys -> Forall2 (fun x y => f x = Ok y) xs ys.
Proof.
  induction xs as [|x xs IH]; simpl; intros ys H.
  - injection H as <-. constructor.
  - destruct (f x) as [y|e] eqn:Hx; simpl in H; [|discriminate].
    destruct (map_result f xs) as [ys'|e]; simpl in H; [|discriminate].
    injection H as <-. constructor; [assumption | now apply IH].
Qed.

Lemma map_result_total {A B} (f : A -> result B) (xs : list A) :
  (forall x, In x xs -> exists y, f x = Ok y) ->
  exists ys, map_result f xs = Ok ys.
Proof.
  induction xs as [|x xs IH]; intros H; simpl; [eauto|].
  destruct (H x (or_introl eq_refl)) as [y ->]. simpl.
  destruct IH as [ys ->]; [intros x' Hx'; apply H; now right|].
  simpl. eauto.
Qed.

Lemma map_result_Raise {A B} (f : A -> result B) (xs : list A) (e : exn) :
  map_result f xs = Raise e -> exists x, In x xs /\ f x = Raise e.
Proof.
  induction xs as [|x xs IH]; simpl; intros H; [discriminate|].
  destruct (f x) as [y|e'] eqn:Hx; simpl in H.
  - destruct (map_result f xs) as [ys|e'']; simpl in H; [discriminate|].
    injection H as ->. destruct (IH eq_refl) as [x' [HIn Hx']]. eauto.
  - injection H as ->. eauto.
Qed.

Lemma project_Raise (row : record) (fl : list string) (e : exn) :
  forall acc,
  for_each (fun result f => v <- Dict.getitem f row ;;
                            Ok (Dict.set f v result)) fl acc = Raise e ->
  exists k, e = KeyError k /\ In k fl /\ Dict.get k row = None.
Proof.
  induction fl as [|f fl IH]; intros acc H; simpl in H; [discriminate|].
  unfold Dict.getitem in H.
  destruct (Dict.get f row) as [v|] eqn:Hf; simpl in H.
  - destruct (IH _ H) as [k [He [HIn Hk]]]. exists k. simpl. auto.
  - injection H as <-. exists f. simpl. auto.
Qed.

(** X6. The only exception of [find_by_template] is the [KeyError] of a
    field of the field list that a row matching the template lacks; rows
    that do not match are never projected. *)
Theorem find_by_template_Raise (self : CSVDataTable)
    (template : option template) (field_list : option (list string))
    (limit offset : option Z) (order_by : option (list string)) (e : exn) :
  find_by_template self template field_list limit offset order_by = Raise e ->
  exists fl k r,
    field_list = Some fl /\ e = KeyError k /\ In k fl /\
    In r (_rows self) /\ matches_template r template = true /\
    Dict.get k r = None.
Proof.
  rewrite find_by_template_scan. intros H.
  apply map_result_Raise in H. destruct H as [r [HIn Hr]].
  apply filter_In in HIn. destruct HIn as [HIn Hm]. apply in_rev in HIn.
  destruct field_list as [fl|]; simpl in Hr; [|discriminate].
  apply project_Raise in Hr. destruct Hr as [k [He [Hk Hget]]].
  exists fl, k, r. repeat split; assumption.
Qed.

Lemma find_by_template_Raise_witness :
  exists fl k r,
    Some ["name"; "zip"] = Some fl /\ KeyError "zip" = KeyError k /\
    In k fl /\ In r (_rows example_table) /\
    matches_template r (Some [("id", VInt 2)]) = true /\
    Dict.get k r = None.
Proof.
  apply (find_by_template_Raise example_table _ _ None None None).
  reflexivity.
Defined.

(** X7. When every row that matches the template has all the fields of the
    field list, [find_by_template] succeeds with one record for each matching
    row: the projection of the row at the same place of the scan. *)
Theorem find_by_template_Ok (self : CSVDataTable)
    (template : option template) (fl : list string)
    (limit offset : option Z) (order_by : option (list string)) :
  (forall r, In r (_rows self) -> matches_template r template = true ->
             forall f, In f fl -> Dict.get f r <> None) ->
  exists found,
    find_by_template self template (Some fl) limit offset order_by = Ok found
    /\ Forall2 (fun r p => _project r (Some fl) = Ok p)
               (filter (fun r => matches_template r template)
                       (rev (_rows self))) found
    /\ List.length found
       = List.length (filter (fun r => matches_template r template)
                             (_rows self)).
Proof.
  intros Hall. rewrite find_by_template_scan.
  destruct (map_result_total
              (fun r => _project r (Some fl))
              (filter (fun r => matches_template r template)
                      (rev (_rows self)))) as [found Hfound].
  { intros r HIn. apply filter_In in HIn. destruct HIn as [HIn Hm].
    apply in_rev in HIn. simpl. apply project_loop_total.
    intros f Hf. now apply (Hall r HIn Hm). }
  exists found. split; [exact Hfound|].
  apply map_result_Forall2 in Hfound. split; [exact Hfound|].
  apply Forall2_length in Hfound. rewrite <- Hfound.
  rewrite <- (length_rev (filter _ (_rows self))).
  f_equal. clear. induction (_rows self) as [|r rs IH]; simpl.
  - reflexivity.
  - rewrite filter_app, IH. simpl.
    destruct (matches_template r template); simpl.
    + reflexivity.
    + now rewrite app_nil_r.
Qed.

Lemma find_by_template_Ok_witness :
  exists found,
    find_by_template example_table (Some [("zip", VNone)]) (Some ["name"])
                     None None None = Ok found
    /\ Forall2 (fun r p => _project r (Some ["name"]) = Ok p)
               (filter (fun r => matches_template r (Some [("zip", VNone)]))
                       (rev (_rows example_table))) found
    /\ List.length found
       = List.length (filter (fun r => matches_template
                                         r (Some [("zip", VNone)]))
                             (_rows example_table)).
Proof.
  apply find_by_template_Ok.
  intros r [<-|[<-|[]]] _ f [<-|[]]; discriminate.
Defined.







(** X8. The row added last is scanned first: after [_add_row], a scan gives
    the new row's projection (if it matches) in front of what the scan gave
    before. *)
Theorem find_by_template_add_row (self : CSVDataTable) (r : record)
    (template : option template) (field_list : option (list string))
    (limit offset : option Z) (order_by : option (list string)) :
  find_by_template (_add_row self r) template field_list limit offset order_by
  = if matches_template r template then
      new_r <- _project r field_list ;;
      found <- find_by_template self template field_list limit offset
                                order_by ;;
      Ok (new_r :: found)
    else find_by_template self template field_list limit offset order_by.
Proof.
  rewrite !find_by_template_scan. unfold _add_row, with_rows. simpl.
  rewrite rev_app_distr. simpl.
  destruct (matches_template r template); reflexivity.
Qed.

(** ** Saving, continued *)







(** X9. [save] leaves the rows of the table as they are and changes no file
    but the one that [directory + "/" + file_name] leads to; this holds
    whether it returns or raises. *)
Theorem save_frame (self : CSVDataTable) (fs : filesystem) :
  _rows (snd (fst (save self fs))) = _rows self /\
  forall p,
    resolve fs p
    <> resolve fs (directory (connect_info self) ++ "/"
                     ++ file_name (connect_info self))%string ->
    snd (save self fs) p = fs p.
Proof.
  unfold save, open_w.
  destruct (open_error fs WriteMode _); simpl; [split; reflexivity|].
  destruct (_rows self) as [|r0 rs] eqn:Hrows.
  - simpl. split; [exact Hrows|]. intros p Hp.
    now apply content_fs_write_other.
  - destruct (save_rows _ _ _) as [res out]. simpl.
    split; [exact Hrows|]. intros p Hp.
    now apply content_fs_write_other.
Qed.

Lemma save_frame_witness :
  snd (save example_table (fs_write empty_fs "data/u.csv" [["x"]]))
      "data/u.csv"
  = fs_write empty_fs "data/u.csv" [["x"]] "data/u.csv".
Proof.
  apply (save_frame example_table). discriminate.
Defined.





(** ** Paths *)

Lemma length_append (a b : string) :
  String.length (a ++ b)%string = String.length a + String.length b.
Proof.
  induction a as [|c a IH]; simpl; [reflexivity | now rewrite IH].
Qed.

(** X12. The path [save] builds, [directory + "/" + file_name], and the path
    [_load] builds, [os.path.join(directory, file_name)], are the same string
    exactly when the directory is not empty and does not end with a slash and
    the file name does not start with one. *)
Theorem save_load_same_path_iff (ci : ConnectInfo) :
  os_path_join (directory ci) (file_name ci)
  = (directory ci ++ "/" ++ file_name ci)%string
  <-> directory ci <> EmptyString /\
      endswith_sep (directory ci) = false /\
      startswith_sep (file_name ci) = false.
Proof.
  destruct ci as [a b]. simpl. unfold os_path_join.
  destruct (startswith_sep b) eqn:Hb.
  - split; [intros H | intros [_ [_ H]]; discriminate].
    apply (f_equal String.length) in H.
    rewrite !length_append in H. simpl in H. lia.
  - destruct (String.eqb_spec a EmptyString) as [->|Ha]; simpl.
    + split; [intros H | intros [H _]; congruence].
      apply (f_equal String.length) in H. simpl in H. lia.
    + destruct (endswith_sep a) eqn:Hend.
      * split; [intros H | intros [_ [H _]]; discriminate].
        apply (f_equal String.length) in H.
        rewrite !length_append in H. simpl in H. lia.
      * split; [auto | reflexivity].
Qed.

(** ** Loading, continued *)

Lemma In_set {V} (k : string) (v : V) (d : Dict.t V) (kv : string * V) :
  In kv (Dict.set k v d) -> kv = (k, v) \/ In kv d.
Proof.
  induction d as [|[k0 v0] d IH]; simpl.
  - intros [<-|[]]. now left.
  - destruct (String.eqb_spec k k0) as [->|Hne]; simpl.
    + intros [<-|H]; auto.
    + intros [<-|H]; auto. destruct (IH H); auto.
Qed.

Lemma keys_of_items {V} (pairs : list (string * V)) : forall (d : Dict.t V) k,
  In k (Dict.keys (fold_left (fun d kv => Dict.set (fst kv) (snd kv) d)
                             pairs d))
  <-> In k (map fst pairs) \/ In k (Dict.keys d).
Proof.
  induction pairs as [|[k0 v0] pairs IH]; intros d k; simpl.
  - tauto.
  - rewrite IH, DictFacts.keys_set. intuition congruence.
Qed.

Lemma keys_fill {V} (v : V) (ks : list string) : forall (d : Dict.t V) k,
  In k (Dict.keys (fold_left (fun d key => Dict.set key v d) ks d))
  <-> In k ks \/ In k (Dict.keys d).
Proof.
  induction ks as [|k0 ks IH]; intros d k; simpl.
  - tauto.
  - rewrite IH, DictFacts.keys_set. intuition congruence.
Qed.

Lemma map_fst_combine {A B} (xs : list A) : forall (ys : list B),
  map fst (combine xs ys) = firstn (List.length ys) xs.
Proof.
  induction xs as [|x xs IH]; intros [|y ys]; simpl; try reflexivity.
  now rewrite IH.
Qed.

Lemma values_of_items (P : value -> Prop) (pairs : list (string * value)) :
  forall d : record,
  Forall (fun kv => P (snd kv)) pairs ->
  Forall (fun kv => P (snd kv)) d ->
  Forall (fun kv => P (snd kv))
         (fold_left (fun d kv => Dict.set (fst kv) (snd kv) d) pairs d).
Proof.
  induction pairs as [|[k0 v0] pairs IH]; intros d Hp Hd; simpl.
  - exact Hd.
  - inversion Hp as [|? ? Hv Hp']; subst. apply IH; [exact Hp'|].
    apply Forall_forall. intros kv HIn. apply In_set in HIn.
    destruct HIn as [->|HIn]; [exact Hv|].
    now apply (proj1 (Forall_forall _ _) Hd).
Qed.

Lemma values_fill (P : value -> Prop) (v : value) (ks : list string) :
  forall d : record,
  P v ->
  Forall (fun kv => P (snd kv)) d ->
  Forall (fun kv => P (snd kv))
         (fold_left (fun d key => Dict.set key v d) ks d).
Proof.
  induction ks as [|k0 ks IH]; intros d Hv Hd; simpl.
  - exact Hd.
  - apply IH; [exact Hv|].
    apply Forall_forall. intros kv HIn. apply In_set in HIn.
    destruct HIn as [->|HIn]; [exact Hv|].
    now apply (proj1 (Forall_forall _ _) Hd).
Qed.

(** A dictionary read from a line has the columns of the header, and strings
    or [None] for values. *)
Lemma DictReader_row_shape (fieldnames : list string) (r : Csv.row)
    (d : record) :
  Csv.DictReader_row fieldnames r = Some d ->
  (forall k, In k (Dict.keys d) <-> In k fieldnames) /\
  Forall (fun kv => snd kv = VNone \/ exists s, snd kv = VStr s) d.
Proof.
  unfold Csv.DictReader_row.
  destruct (Nat.ltb_spec (List.length fieldnames) (List.length r)) as [|Hle];
    [discriminate|].
  intros [= <-]. split.
  - intros k. rewrite keys_fill. unfold Dict.of_items.
    rewrite keys_of_items, map_fst_combine, length_map. simpl.
    rewrite <- (firstn_skipn (List.length r) fieldnames) at 3.
    rewrite in_app_iff. tauto.
  - apply (values_fill (fun v => v = VNone \/ exists s, v = VStr s));
      [now left|].
    apply (values_of_items (fun v => v = VNone \/ exists s, v = VStr s));
      [|constructor].
    apply Forall_forall. intros [k v] HIn. apply in_combine_r in HIn.
    apply in_map_iff in HIn. destruct HIn as [s [<- _]]. simpl. eauto.
Qed.

Lemma read_row_Ok (line cells : Csv.row) :
  Csv.read_row line = Ok cells ->
  cells = map Csv.universal_newlines line.
Proof.
  unfold Csv.read_row. destruct (forallb _ _); [|discriminate].
  now intros [= <-].
Qed.

(** The rows read when the reader comes to the end of the lines. *)
Lemma DictReader_rows_read (fieldnames : list string)
    (lines : list Csv.row) :
  forall ds,
  Csv.DictReader_rows fieldnames (Csv.reader lines) = Some (ds, None) ->
  (forall d, In d ds ->
     (forall k, In k (Dict.keys d) <-> In k fieldnames) /\
     Forall (fun kv => snd kv = VNone \/ exists s, snd kv = VStr s) d) /\
  List.length ds
  = List.length (filter (fun r : Csv.row =>
                           match r with [] => false | _ => true end) lines).
Proof.
  unfold Csv.reader.
  induction lines as [|line lines IH]; intros ds H; simpl in H.
  - injection H as <-. split; [intros d []| reflexivity].
  - destruct (Csv.read_row line) as [cells|e] eqn:Hread; [|discriminate].
    apply read_row_Ok in Hread.
    destruct line as [|c cs]; simpl in Hread; subst cells.
    { exact (IH ds H). }
    destruct (Csv.DictReader_row fieldnames _) as [d|] eqn:Hd;
      [|discriminate].
    destruct (Csv.DictReader_rows fieldnames _) as [[ds' stop]|];
      [|discriminate].
    injection H as <- ->. destruct (IH ds' eq_refl) as [Hshape Hlen]. split.
    + intros d' [<-|HIn]; [|now apply Hshape].
      eapply DictReader_row_shape. exact Hd.
    + simpl. now rewrite Hlen.
Qed.


Lemma DictReader_shape (f : Csv.file) (ds : list record) :
  Csv.DictReader f = Some (ds, None) ->
  (forall d, In d ds ->
     (forall k, In k (Dict.keys d)
                <-> In k (map Csv.universal_newlines (hd [] f))) /\
     Forall (fun kv => snd kv = VNone \/ exists s, snd kv = VStr s) d) /\
  List.length ds
  = List.length (filter (fun r : Csv.row =>
                           match r with [] => false | _ => true end)
                        (tl f)).
Proof.
  unfold Csv.DictReader. destruct f as [|h lines].
  - simpl. intros [= <-]. split; [intros d [] | reflexivity].
  - change (Csv.reader (h :: lines))
      with (Csv.read_row h :: Csv.reader lines).
    destruct (Csv.read_row h) as [cells|e] eqn:Hh; [|discriminate].
    apply read_row_Ok in Hh. subst cells. simpl hd. simpl tl.
    apply DictReader_rows_read.
Qed.


Lemma open_r_Ok (fs : filesystem) (path : string) (f : Csv.file) :
  open_r fs path = Ok f <->
  open_error fs ReadMode path = None /\ fs path = Some f.
Proof.
  unfold open_r. destruct (open_error fs ReadMode path).
  - split; [discriminate | intros [H _]; discriminate].
  - destruct (fs path) as [f'|].
    + split; [intros [= ->]; auto | intros [_ [= ->]]; reflexivity].
    + split; [discriminate | intros [_ H]; discriminate].
Qed.

(** What the constructor does when it is given no rows. *)
Lemma init_loads (name : string) (ci : ConnectInfo) (kc : list string)
    (dbg : bool) (fs : filesystem) (self : CSVDataTable) :
  __init__ name ci kc dbg None fs = Some (Ok self) <->
  exists f,
    open_r fs (os_path_join (directory ci) (file_name ci)) = Ok f /\
    Csv.DictReader f = Some (_rows self, None) /\
    self = mkCSVDataTable name ci kc dbg (_rows self) None.
Proof.
  unfold __init__, _load. simpl. split.
  - destruct (open_r fs _) as [f|e] eqn:Hf; [|discriminate].
    destruct (Csv.DictReader f) as [[ds [e|]]|] eqn:Hds; try discriminate.
    intros [= <-]. exists f. rewrite add_rows. simpl.
    repeat split. exact Hds.
  - intros [f [-> [-> ->]]]. rewrite add_rows. reflexivity.
Qed.




(** X14. A table constructed from a file has one row for each line after the
    first that is not blank. An empty file and a file with a header only
    give a table without rows. *)
Theorem loaded_rows_count (name : string) (ci : ConnectInfo)
    (kc : list string) (dbg : bool) (fs : filesystem) (self : CSVDataTable)
    (f : Csv.file) :
  __init__ name ci kc dbg None fs = Some (Ok self) ->
  fs (os_path_join (directory ci) (file_name ci)) = Some f ->
  List.length (_rows self)
  = List.length (filter (fun r : Csv.row =>
                           match r with [] => false | _ => true end)
                        (tl f)).
Proof.
  intros Hinit Hf. apply init_loads in Hinit.
  destruct Hinit as [f' [Hf' [Hds _]]].
  apply open_r_Ok in Hf'. destruct Hf' as [_ Hf'].
  assert (f' = f) by congruence. subst f'.
  now apply (proj2 (DictReader_shape f _ Hds)).
Qed.

Lemma loaded_rows_count_witness :
  List.length [[("id", VStr "1")]; [("id", VStr "2")]]
  = List.length (filter (fun r : Csv.row =>
                           match r with [] => false | _ => true end)
                        [["1"]; []; ["2"]; []]).
Proof.
  apply (loaded_rows_count
           "t" (mkConnectInfo "data" "t.csv") ["id"] true
           (fs_write empty_fs "data/t.csv"
                     [["id"]; ["1"]; []; ["2"]; []])
           (mkCSVDataTable "t" (mkConnectInfo "data" "t.csv") ["id"] true
                           [[("id", VStr "1")]; [("id", VStr "2")]] None)
           [["id"]; ["1"]; []; ["2"]; []]).
  - reflexivity.
  - reflexivity.
Defined.



(** X16. [_load] adds to the rows that are there: called on a table that has
    loaded its file already, it leaves the table with the rows of the file
    twice. *)
Theorem load_twice (self self1 : CSVDataTable) (fs : filesystem) :
  _load self fs = Some (Ok tt, self1) ->
  exists ds,
    _rows self1 = _rows self ++ ds /\
    _load self1 fs = Some (Ok tt, with_rows self (_rows self ++ ds ++ ds)).
Proof.
  unfold _load.
  destruct (open_r fs (os_path_join (directory (connect_info self))
                                    (file_name (connect_info self))))
    as [f|e] eqn:Hf; [|discriminate].
  destruct (Csv.DictReader f) as [[ds [e|]]|] eqn:Hds; try discriminate.
  intros [= <-]. exists ds. rewrite !add_rows. simpl.
  split; [reflexivity|]. rewrite Hf, Hds, add_rows. simpl.
  unfold with_rows. simpl. now rewrite <- app_assoc.
Qed.

Lemma load_twice_witness :
  exists ds,
    [[("id", VStr "1")]] = [] ++ ds /\
    _load (with_rows example_table [[("id", VStr "1")]])
          (fs_write empty_fs "data/t.csv" [["id"]; ["1"]])
    = Some (Ok tt, with_rows (with_rows example_table [])
                             ([] ++ ds ++ ds)).
Proof.
  apply (load_twice (with_rows example_table [])
                    (with_rows example_table [[("id", VStr "1")]])).
  reflexivity.
Defined.

(** ** The printed sample *)

Lemma rows_to_print_short (self : CSVDataTable) :
  List.length (_rows self) <= 10 -> rows_to_print self = _rows self.
Proof.
  intros Hlen. unfold rows_to_print, _rows_to_print.
  destruct (Z.leb_spec (Z.of_nat (List.length (_rows self))) 10) as [_|H];
    [|lia].
  unfold py_slice, slice_index. change (0 <? 0)%Z with false. cbv iota.
  destruct (Z.ltb_spec (Z.of_nat (List.length (_rows self))) 0) as [|_];
    [lia|].
  rewrite Z.min_id, (Z.min_l 0) by lia.
  rewrite Z.sub_0_r, Nat2Z.id. simpl (Z.to_nat 0). simpl (skipn 0 _).
  apply firstn_all.
Qed.

Lemma rows_to_print_long (self : CSVDataTable) :
  10 < List.length (_rows self) ->
  rows_to_print self
  = firstn 5 (_rows self)
    ++ repeat (fold_left (fun tmp_row k => Dict.set k (VStr "***") tmp_row)
                         (Dict.keys (hd [] (_rows self))) []) 2
    ++ firstn 5 (skipn (List.length (_rows self) - 6) (_rows self)).
Proof.
  intros Hlen. unfold rows_to_print, _rows_to_print, _no_of_separators.
  destruct (Z.leb_spec (Z.of_nat (List.length (_rows self))) 10) as [H|_];
    [lia|].
  change (10 / 2)%Z with 5%Z. change (- (5) - 1)%Z with (-6)%Z.
  unfold py_slice, slice_index.
  change (0 <? 0)%Z with false. change (5 <? 0)%Z with false.
  change (-6 <? 0)%Z with true. change (-1 <? 0)%Z with true. cbv iota.
  rewrite (Z.min_l 0) by lia. rewrite (Z.min_l 5) by lia.
  rewrite !Z.max_r by lia.
  replace (Z.to_nat (5 - 0)) with 5 by lia.
  replace (Z.to_nat (Z.of_nat (List.length (_rows self)) + -1
                     - (Z.of_nat (List.length (_rows self)) + -6)))
    with 5 by lia.
  replace (Z.to_nat (Z.of_nat (List.length (_rows self)) + -6))
    with (List.length (_rows self) - 6) by lia.
  simpl (Z.to_nat 0). simpl (skipn 0 _).
  rewrite <- app_assoc. f_equal. f_equal.
  destruct (_rows self); reflexivity.
Qed.

Lemma get_fill {V} (v : V) (ks : list string) : forall (d : Dict.t V) k,
  Dict.get k (fold_left (fun d key => Dict.set key v d) ks d)
  = if existsb (String.eqb k) ks then Some v else Dict.get k d.
Proof.
  induction ks as [|k0 ks IH]; intros d k; simpl; [reflexivity|].
  rewrite IH, DictFacts.get_set.
  destruct (String.eqb k k0); simpl; [|reflexivity].
  now destruct (existsb _ ks).
Qed.

(** X17. The sample of rows that [__str__] prints: a table of at most ten
    rows is shown whole; of a longer one twelve rows are shown, the first
    five rows, two separator rows that bind every column of the first row to
    three asterisks, and then the five rows before the last one. The last
    row of a longer table is not part of the sample. *)
Theorem rows_to_print_sample (self : CSVDataTable) :
  (List.length (_rows self) <= 10 -> rows_to_print self = _rows self) /\
  (10 < List.length (_rows self) ->
   List.length (rows_to_print self) = 12 /\
   (forall i, i < 5 ->
      nth_error (rows_to_print self) i = nth_error (_rows self) i) /\
   (forall i, i < 2 ->
      exists sep,
        nth_error (rows_to_print self) (5 + i) = Some sep /\
        forall k, Dict.get k sep
                  = if Dict.mem k (hd [] (_rows self))
                    then Some (VStr "***") else None) /\
   (forall i, i < 5 ->
      nth_error (rows_to_print self) (7 + i)
      = nth_error (_rows self) (List.length (_rows self) - 6 + i))).
Proof.
  split; [apply rows_to_print_short|]. intros Hlen.
  rewrite rows_to_print_long by exact Hlen.
  assert (Hhead : List.length (firstn 5 (_rows self)) = 5).
  { rewrite length_firstn. lia. }
  split; [|split; [|split]].
  - rewrite !length_app, !length_firstn, length_skipn, repeat_length. lia.
  - intros i Hi. rewrite nth_error_app1 by lia.
    rewrite nth_error_firstn.
    destruct (Nat.ltb_spec i 5); [reflexivity | lia].
  - intros i Hi. rewrite nth_error_app2 by lia. rewrite Hhead.
    replace (5 + i - 5) with i by lia.
    eexists. split.
    + destruct i as [|[|i]]; [reflexivity | reflexivity | lia].
    + intros k. rewrite get_fill. simpl.
      unfold Dict.mem.
      destruct (existsb (String.eqb k) (Dict.keys (hd [] (_rows self))))
        eqn:E.
      * apply existsb_eqb_In in E.
        destruct (Dict.get k (hd [] (_rows self))) eqn:G; [reflexivity|].
        apply DictFacts.get_None in G. contradiction.
      * apply existsb_eqb_not_In in E. apply DictFacts.get_None in E.
        now rewrite E.
  - intros i Hi. rewrite nth_error_app2 by lia. rewrite Hhead.
    rewrite nth_error_app2 by (simpl; lia). simpl List.length.
    replace (7 + i - 5 - 2) with i by lia.
    rewrite nth_error_firstn, nth_error_skipn.
    destruct (Nat.ltb_spec i 5); [reflexivity | lia].
Qed.

Lemma rows_to_print_sample_witness :
  List.length
    (rows_to_print
       (with_rows example_table
          (map (fun n => [("id", VInt n)])
               [1; 2; 3; 4; 5; 6; 7; 8; 9; 10; 11]%Z))) = 12.
Proof.
  apply (rows_to_print_sample
           (with_rows example_table
              (map (fun n => [("id", VInt n)])
                   [1; 2; 3; 4; 5; 6; 7; 8; 9; 10; 11]%Z))).
  simpl. lia.
Defined.

(** ** What comes back from a saved file *)



